(** * Watch firmware entry point (Watch/src/main.cpp)

    A shallow embedding of the T-Watch clock sketch: [setup] brings the
    hardware up and builds one LVGL label, [loop] polls the real-time clock
    once per second and prints it into a 16-byte buffer that is then shown
    in the label.

    The vendor libraries (LilyGoLib, LVGL, the Arduino core and the C
    library) are the boundary of the program.  Their answers are taken from
    a [hardware] record, their calls are recorded in a trace, and the little
    state they keep for this program (the children of the active screen) is
    modelled as a finite map. *)

From Stdlib Require Import ZArith Ascii String.
From stdpp Require Import gmap list.

Open Scope Z_scope.

(** ** C strings and [snprintf] *)

Module CStr.

Definition NUL : ascii := Ascii.zero.

Definition is_nul (c : ascii) : bool := Ascii.eqb c NUL.

(** Reading a [char*]: the characters up to the first terminator. *)
Fixpoint cstr (mem : list ascii) : list ascii :=
  match mem with
  | [] => []
  | c :: rest => if is_nul c then [] else c :: cstr rest
  end.

Definition cstring (mem : list ascii) : string := string_of_list_ascii (cstr mem).

(** The digit character of [d], for [0 <= d <= 9]. *)
Definition digit_char (d : Z) : ascii := ascii_of_nat (48 + Z.to_nat d).

Definition is_digit (c : ascii) : bool :=
  let n := nat_of_ascii c in (48 <=? n)%nat && (n <=? 57)%nat.

(** Reading a run of digits back as a number, as [atoi] does. *)
Fixpoint digits_value (acc : Z) (ds : list ascii) : Z :=
  match ds with
  | [] => acc
  | c :: rest => digits_value (10 * acc + (Z.of_nat (nat_of_ascii c) - 48)) rest
  end.

(** Decimal digits of a non-negative number, most significant first.  The
    number has at most as many decimal digits as it has bits, so the fuel
    given by [utoa] is never exhausted. *)
Fixpoint utoa_aux (fuel : nat) (n : Z) (acc : list ascii) : list ascii :=
  match fuel with
  | O => acc
  | S fuel' =>
      let acc' := digit_char (n mod 10) :: acc in
      if n / 10 =? 0 then acc' else utoa_aux fuel' (n / 10) acc'
  end.

Definition utoa (n : Z) : list ascii :=
  utoa_aux (S (Z.to_nat (Z.log2 n))) n [].

(** Left padding with ['0'] up to a minimum width; longer texts are kept
    whole. *)
Definition pad0 (width : nat) (ds : list ascii) : list ascii :=
  replicate (width - length ds) "0"%char ++ ds.

(** The conversion [%0<width>d]: a minimum field width, zero padding placed
    after the sign. *)
Definition fmt_0d (width : nat) (v : Z) : list ascii :=
  if v <? 0 then "-"%char :: pad0 (width - 1) (utoa (- v))
  else pad0 width (utoa v).

(** [snprintf(mem, n, ...)] where [out] is the complete formatted text: at
    most [n - 1] characters of [out] are stored, then a terminator; nothing
    is stored when [n] is 0, and the cells after the terminator keep their
    content.  The value returned is the length of the complete text. *)
Definition snprintf (mem : list ascii) (n : nat) (out : list ascii)
  : list ascii * Z :=
  (match n with
   | O => mem
   | S n' =>
       let k := (length out `min` n')%nat in
       take k out ++ NUL :: drop (S k) mem
   end,
   Z.of_nat (length out)).

(** Number of cells [snprintf] stores into. *)
Definition snprintf_stored (n : nat) (out : list ascii) : nat :=
  match n with
  | O => O
  | S n' => S (length out `min` n')
  end.

End CStr.

Import CStr.

(** ** The clock text *)

(** Modelled from the spec: the date/time value returned by the clock
    peripheral; its declaration is in the vendor library.  The sketch reads
    the three fields below and passes them to a variadic call, where each
    one is an [int]. *)
Record RTC_Date := mkDate {
  hour : Z;
  minute : Z;
  second : Z
}.

(** The text of ["%02d:%02d:%02d"] for the three fields. *)
Definition time_text (now : RTC_Date) : list ascii :=
  fmt_0d 2 (hour now) ++ ":"%char ::
  fmt_0d 2 (minute now) ++ ":"%char ::
  fmt_0d 2 (second now).

(** [sizeof(buf)] for [static char buf[16]]. *)
Definition BUF_SIZE : nat := 16.

(** [snprintf(buf, sizeof(buf), "%02d:%02d:%02d", now.hour, now.minute,
    now.second)], as a function of the buffer. *)
Definition format_step (buf : list ascii) (now : RTC_Date) : list ascii :=
  fst (snprintf buf BUF_SIZE (time_text now)).

(** The shape [\d{2}:\d{2}:\d{2}]. *)
Definition matches_dd_dd_dd (s : list ascii) : bool :=
  match s with
  | [h1; h0; c1; m1; m0; c2; s1; s0] =>
      is_digit h1 && is_digit h0 && Ascii.eqb c1 ":" &&
      is_digit m1 && is_digit m0 && Ascii.eqb c2 ":" &&
      is_digit s1 && is_digit s0
  | _ => false
  end.

Definition zero_buf : list ascii := replicate BUF_SIZE NUL.

(** ** The boundary: hardware answers, LVGL objects, recorded calls *)

(** What the peripherals answer.  [onec_ok] is whether a motor pulse would
    succeed; [rtc_time k] is the value of the [k]-th clock read. *)
Record hardware := mkHardware {
  begin_ok : bool;
  psram_found : bool;
  motor_present : bool;
  onec_ok : bool;
  rtc_time : nat -> RTC_Date
}.

Inductive lv_font := lv_font_default | lv_font_montserrat_28.

Record lv_label := mkLabel {
  label_text : string;
  label_font : lv_font;
  label_centered : bool
}.

(** LVGL as far as the sketch sees it: the active screen, its children by
    address, and the last address handed out.  Address 0 is the null
    pointer. *)
Record lvgl := mkLvgl {
  act_scr : N;
  children : gmap N lv_label;
  last_obj : N
}.

Inductive event :=
| SerialBegin (baud : Z)
| SerialPrintln (line : string)
| WatchBegin
| PsramFound
| MotorOnec (ms : Z)
| LvScrAct
| LvObjClean (obj : N)
| LvLabelCreate (parent : N)
| LvObjSetStyleTextFont (obj : N) (font : lv_font) (selector : Z)
| LvObjCenter (obj : N)
| LvLabelSetText (obj : N) (text : string)
| RtcGetDateTime
| Snprintf (size : nat) (h m s : Z)
| LvTimerHandler
| Delay (ms : Z).

(** The globals of the sketch, the library state and the calls made so far
    (oldest first). *)
Record state := mkState {
  clock_label : N;
  buf : list ascii;
  lv : lvgl;
  rtc_reads : nat;
  trace : list event
}.

(** ** A state monad with one way not to return

    [Stalled s] is control standing at [while (true) delay(100);] with
    state [s]: the rest of the function is never run. *)

Inductive outcome (A : Type) :=
| Returned (a : A) (s : state)
| Stalled (s : state).
Arguments Returned {A} a s.
Arguments Stalled {A} s.

Definition M (A : Type) : Type := state -> outcome A.

#[export] Instance M_ret : MRet M := fun A a s => Returned a s.

#[export] Instance M_bind : MBind M := fun A B f m s =>
  match m s with
  | Returned a s' => f a s'
  | Stalled s' => Stalled s'
  end.

Definition stall {A} : M A := fun s => Stalled s.

Definition call (e : event) : M unit := fun s =>
  Returned tt (mkState (clock_label s) (buf s) (lv s) (rtc_reads s) (trace s ++ [e])).

Definition get_clock_label : M N := fun s => Returned (clock_label s) s.

Definition set_clock_label (p : N) : M unit := fun s =>
  Returned tt (mkState p (buf s) (lv s) (rtc_reads s) (trace s)).

Definition get_buf : M (list ascii) := fun s => Returned (buf s) s.

Definition set_buf (b : list ascii) : M unit := fun s =>
  Returned tt (mkState (clock_label s) b (lv s) (rtc_reads s) (trace s)).

Definition get_lv : M lvgl := fun s => Returned (lv s) s.

Definition set_lv (g : lvgl) : M unit := fun s =>
  Returned tt (mkState (clock_label s) (buf s) g (rtc_reads s) (trace s)).

Definition when (c : bool) (body : M unit) : M unit :=
  if c then body else mret tt.

(** *** LVGL calls *)

Definition lv_scr_act : M N :=
  call LvScrAct ;; g ← get_lv ; mret (act_scr g).

(** Deletes every child of the object; only the active screen has children
    here. *)
Definition lv_obj_clean (obj : N) : M unit :=
  call (LvObjClean obj) ;;
  g ← get_lv ;
  when (N.eqb obj (act_scr g)) (set_lv (mkLvgl (act_scr g) ∅ (last_obj g))).

(** A new label has the default text, the default font and no alignment. *)
Definition lv_label_create (parent : N) : M N :=
  call (LvLabelCreate parent) ;;
  g ← get_lv ;
  let p := N.succ (last_obj g) in
  set_lv (mkLvgl (act_scr g)
            (if N.eqb parent (act_scr g)
             then <[p := mkLabel "Text" lv_font_default false]> (children g)
             else children g)
            p) ;;
  mret p.

Definition update_label (obj : N) (f : lv_label -> lv_label) : M unit :=
  g ← get_lv ;
  set_lv (mkLvgl (act_scr g) (alter f obj (children g)) (last_obj g)).

Definition lv_obj_set_style_text_font (obj : N) (font : lv_font) (selector : Z)
  : M unit :=
  call (LvObjSetStyleTextFont obj font selector) ;;
  update_label obj (fun l => mkLabel (label_text l) font (label_centered l)).

Definition lv_obj_center (obj : N) : M unit :=
  call (LvObjCenter obj) ;;
  update_label obj (fun l => mkLabel (label_text l) (label_font l) true).

(** The label keeps its own copy of the text. *)
Definition lv_label_set_text (obj : N) (text : string) : M unit :=
  call (LvLabelSetText obj text) ;;
  update_label obj (fun l => mkLabel text (label_font l) (label_centered l)).

(** Redraw and timers; the sketch registers no timer and no callback, so
    nothing of its state changes. *)
Definition lv_timer_handler : M unit := call LvTimerHandler.

(** *** Arduino core *)

Definition Serial_begin (baud : Z) : M unit := call (SerialBegin baud).
Definition Serial_println (line : string) : M unit := call (SerialPrintln line).
Definition delay (ms : Z) : M unit := call (Delay ms).

(** "Starting" followed by U+2026 in UTF-8. *)
Definition placeholder : string :=
  ("Starting" ++ String "226" (String "128" (String "166" EmptyString)))%string.

Section Sketch.

Variable hw : hardware.

(** *** Calls answered by the hardware *)

Definition watch_begin : M bool := call WatchBegin ;; mret (begin_ok hw).

Definition psramFound : M bool := call PsramFound ;; mret (psram_found hw).

(** [watch.motor], as a truth value. *)
Definition watch_motor : M bool := mret (motor_present hw).

(** [watch.motor->onec(ms)]; the answer is what the driver could report. *)
Definition motor_onec (ms : Z) : M bool := call (MotorOnec ms) ;; mret (onec_ok hw).

Definition rtc_getDateTime : M RTC_Date := fun s =>
  Returned (rtc_time hw (rtc_reads s))
    (mkState (clock_label s) (buf s) (lv s) (S (rtc_reads s))
       (trace s ++ [RtcGetDateTime])).

(** [snprintf(buf, sizeof(buf), "%02d:%02d:%02d", ...)] on the static
    buffer; the returned length is dropped. *)
Definition snprintf_buf (now : RTC_Date) : M unit :=
  call (Snprintf BUF_SIZE (hour now) (minute now) (second now)) ;;
  b ← get_buf ;
  set_buf (format_step b now).

(** *** [setup] *)
Definition setup : M unit :=
  Serial_begin 115200 ;;
  Serial_println "T-Watch S3 (PlatformIO) boot" ;;

  ok ← watch_begin ;
  when (negb ok) (
    Serial_println "watch.begin() failed" ;;
    stall
  ) ;;

  found ← psramFound ;
  when found (Serial_println "PSRAM OK") ;;
  motor ← watch_motor ;
  when motor (motor_onec 30 ;; mret tt) ;;

  scr ← lv_scr_act ;
  lv_obj_clean scr ;;
  scr ← lv_scr_act ;
  label ← lv_label_create scr ;
  set_clock_label label ;;
  label ← get_clock_label ;
  lv_obj_set_style_text_font label lv_font_montserrat_28 0 ;;
  label ← get_clock_label ;
  lv_obj_center label ;;
  label ← get_clock_label ;
  lv_label_set_text label placeholder.

(** *** [loop] *)
Definition loop : M unit :=
  now ← rtc_getDateTime ;

  snprintf_buf now ;;
  label ← get_clock_label ;
  b ← get_buf ;
  lv_label_set_text label (cstring b) ;;

  lv_timer_handler ;;
  delay 1000.

(** *** The Arduino task: [setup()] once, then [loop()] for ever

    A machine state is where control stands between two steps: in the
    stall loop of [setup], or about to call [loop]. *)

Inductive control := InStall | InLoop.

Record machine := mkMachine { ctl : control; st : state }.

Definition resume (next : control) (o : outcome unit) : machine :=
  match o with
  | Returned _ s => mkMachine next s
  | Stalled s => mkMachine InStall s
  end.

(** Globals are zero-initialised.  [g0] is LVGL as the vendor library sets
    it up; the sketch makes no LVGL call before [watch.begin()] has
    returned. *)
Definition power_on (g0 : lvgl) : state := mkState 0%N zero_buf g0 0 [].

Definition boot (g0 : lvgl) : machine := resume InLoop (setup (power_on g0)).

(** One turn of whichever loop control is in. *)
Definition tick (m : machine) : machine :=
  match ctl m with
  | InStall => resume InStall (delay 100 (st m))
  | InLoop => resume InLoop (loop (st m))
  end.

Fixpoint run (g0 : lvgl) (n : nat) : machine :=
  match n with
  | O => boot g0
  | S k => tick (run g0 k)
  end.

End Sketch.

(** ** Observations on traces *)

Definition is_serial (e : event) : bool :=
  match e with
  | SerialBegin _ | SerialPrintln _ => true
  | _ => false
  end.

Definition is_pulse (e : event) : bool :=
  match e with MotorOnec _ => true | _ => false end.

(** Calls that build or tear down the display. *)
Definition is_display (e : event) : bool :=
  match e with
  | LvScrAct | LvObjClean _ | LvLabelCreate _
  | LvObjSetStyleTextFont _ _ _ | LvObjCenter _
  | LvLabelSetText _ _ | LvTimerHandler => true
  | _ => false
  end.

Definition is_create (e : event) : bool :=
  match e with LvLabelCreate _ => true | _ => false end.

Definition is_clean (e : event) : bool :=
  match e with LvObjClean _ => true | _ => false end.

Definition count (p : event -> bool) (tr : list event) : nat :=
  length (List.filter p tr).

Definition without (p : event -> bool) (tr : list event) : list event :=
  List.filter (fun e => negb (p e)) tr.

(** The calls of one [loop] whose clock read returns [now], for label
    [label]. *)
Definition loop_calls (label : N) (now : RTC_Date) : list event :=
  [ RtcGetDateTime;
    Snprintf BUF_SIZE (hour now) (minute now) (second now);
    LvLabelSetText label (string_of_list_ascii (take 15 (time_text now)));
    LvTimerHandler;
    Delay 1000 ].

(** The calls of [setup] up to the test of [watch.begin()]. *)
Definition boot_calls : list event :=
  [ SerialBegin 115200;
    SerialPrintln "T-Watch S3 (PlatformIO) boot";
    WatchBegin ].

(** The calls that build the display, for screen [scr] and new label [p]. *)
Definition display_calls (scr p : N) : list event :=
  [ LvScrAct; LvObjClean scr;
    LvScrAct; LvLabelCreate scr;
    LvObjSetStyleTextFont p lv_font_montserrat_28 0;
    LvObjCenter p;
    LvLabelSetText p placeholder ].

(** The calls of a [setup] that returns. *)
Definition setup_calls (hw : hardware) (scr p : N) : list event :=
  boot_calls ++ [PsramFound] ++
  (if psram_found hw then [SerialPrintln "PSRAM OK"] else []) ++
  (if motor_present hw then [MotorOnec 30] else []) ++
  display_calls scr p.

(** The calls of a [setup] that stalls, before the first [delay]. *)
Definition failure_calls : list event :=
  boot_calls ++ [SerialPrintln "watch.begin() failed"].

(** The calls of the first [n] turns of [loop]. *)
Definition loops_calls (hw : hardware) (label : N) (n : nat) : list event :=
  concat (List.map (fun k => loop_calls label (rtc_time hw k)) (seq 0 n)).

(** The buffer after [n] turns of [loop]. *)
Fixpoint buf_after (hw : hardware) (n : nat) : list ascii :=
  match n with
  | O => zero_buf
  | S k => format_step (buf_after hw k) (rtc_time hw k)
  end.

(** The text of the label after [n] turns of [loop]. *)
Definition text_after (hw : hardware) (n : nat) : string :=
  match n with
  | O => placeholder
  | S k => string_of_list_ascii (take 15 (time_text (rtc_time hw k)))
  end.

(** The same hardware with one answer changed. *)
Definition with_psram (b : bool) (hw : hardware) : hardware :=
  mkHardware (begin_ok hw) b (motor_present hw) (onec_ok hw) (rtc_time hw).

Definition with_motor (b : bool) (hw : hardware) : hardware :=
  mkHardware (begin_ok hw) (psram_found hw) b (onec_ok hw) (rtc_time hw).

Definition with_onec (b : bool) (hw : hardware) : hardware :=
  mkHardware (begin_ok hw) (psram_found hw) (motor_present hw) b (rtc_time hw).

(** Two states that differ at most in the recorded calls. *)
Definition same_but_trace (s1 s2 : state) : Prop :=
  clock_label s1 = clock_label s2 /\ buf s1 = buf s2 /\
  lv s1 = lv s2 /\ rtc_reads s1 = rtc_reads s2.

(** The buffer holds a terminated string. *)
Definition nul_terminated (b : list ascii) : Prop :=
  exists i, (i < length b)%nat /\ b !! i = Some NUL.

(** ** Reading the clock text back *)

(** [atoi] on a printed field: an optional minus sign, then digits. *)
Definition atoi (s : list ascii) : Z :=
  match s with
  | c :: rest => if Ascii.eqb c "-" then - digits_value 0 rest else digits_value 0 s
  | [] => 0
  end.

(** The characters up to the first colon, and what follows that colon. *)
Fixpoint field (s : list ascii) : list ascii * list ascii :=
  match s with
  | [] => ([], [])
  | c :: rest =>
      if Ascii.eqb c ":" then ([], rest)
      else let (f, rest') := field rest in (c :: f, rest')
  end.

(** The inverse reading of ["%02d:%02d:%02d"], as [sscanf] with ["%d:%d:%d"]
    would do it. *)
Definition parse_time (s : list ascii) : RTC_Date :=
  let (h, r1) := field s in
  let (m, r2) := field r1 in
  mkDate (atoi h) (atoi m) (atoi (fst (field r2))).

(** The characters a clock text is made of. *)
Definition is_clock_char (c : ascii) : bool :=
  is_digit c || Ascii.eqb c "-" || Ascii.eqb c ":".

(** Milliseconds of [delay] asked for in a trace. *)
Fixpoint slept (tr : list event) : Z :=
  match tr with
  | [] => 0
  | Delay ms :: rest => ms + slept rest
  | _ :: rest => slept rest
  end.

Definition is_watch_begin (e : event) : bool :=
  match e with WatchBegin => true | _ => false end.

Definition is_serial_begin (e : event) : bool :=
  match e with SerialBegin _ => true | _ => false end.

(** Sample worlds: a watch whose [begin] fails, one that works and whose
    clock shows 23:59:k at the k-th read, and an LVGL with an empty screen. *)
Definition hw_dead : hardware :=
  mkHardware false true true true (fun _ => mkDate 0 0 0).

Definition hw_live : hardware :=
  mkHardware true true true true (fun k => mkDate 23 59 (Z.of_nat k)).

Definition g_blank : lvgl := mkLvgl 1 ∅ 1.

(** ** Facts about the C string model *)

Section CStrFacts.

Lemma is_nul_false_digit c : is_digit c = true -> is_nul c = false.
Proof.
  unfold is_digit, is_nul, NUL. intros Hd.
  destruct (Ascii.eqb_spec c Ascii.zero) as [-> | _]; [discriminate Hd | reflexivity].
Qed.

Lemma digit_char_is_digit d : 0 <= d < 10 -> is_digit (digit_char d) = true.
Proof.
  intros Hd.
  assert (Hcases : d = 0 \/ d = 1 \/ d = 2 \/ d = 3 \/ d = 4 \/
                   d = 5 \/ d = 6 \/ d = 7 \/ d = 8 \/ d = 9) by lia.
  repeat (destruct Hcases as [-> | Hcases]; [reflexivity |]).
  subst d. reflexivity.
Qed.

Lemma cstr_app_nul p rest :
  Forall (fun c => is_nul c = false) p -> cstr (p ++ NUL :: rest) = p.
Proof.
  induction 1 as [| c p Hc _ IH]; simpl.
  - reflexivity.
  - rewrite Hc, IH. reflexivity.
Qed.

Lemma utoa_aux_acc fuel : forall n acc,
  utoa_aux fuel n acc = utoa_aux fuel n [] ++ acc.
Proof.
  induction fuel as [| fuel IH]; intros n acc; simpl.
  - reflexivity.
  - destruct (n / 10 =? 0); [reflexivity |].
    rewrite (IH _ (_ :: acc)), (IH _ [_]), <- app_assoc. reflexivity.
Qed.

Lemma log2_div10_lt n : 10 <= n -> Z.log2 (n / 10) < Z.log2 n.
Proof.
  intros Hn.
  assert (H0 : 0 < n / 10) by (apply Z.div_str_pos; lia).
  apply Z.log2_lt_pow2; [exact H0 |].
  destruct (Z.log2_spec n) as [_ Hhi]; [lia |].
  rewrite Z.pow_succ_r in Hhi by apply Z.log2_nonneg.
  apply Z.div_lt_upper_bound; lia.
Qed.

(** Any fuel above the number of bits gives the same digits. *)
Lemma utoa_aux_fuel f1 : forall f2 n acc,
  0 <= n -> (Z.to_nat (Z.log2 n) < f1)%nat -> (Z.to_nat (Z.log2 n) < f2)%nat ->
  utoa_aux f1 n acc = utoa_aux f2 n acc.
Proof.
  induction f1 as [| f1 IH]; intros f2 n acc Hn H1 H2; [lia |].
  destruct f2 as [| f2]; [lia |]. simpl.
  destruct (Z.eqb_spec (n / 10) 0) as [_ | Hq]; [reflexivity |].
  assert (Hn10 : 10 <= n).
  { destruct (Z_lt_le_dec n 10) as [Hlt | Hge]; [| exact Hge].
    exfalso. apply Hq. apply Z.div_small. lia. }
  pose proof (log2_div10_lt n Hn10) as Hlog.
  pose proof (Z.log2_nonneg (n / 10)) as Hnn.
  apply IH; [apply Z.div_pos; lia | lia | lia].
Qed.

(** The recursion of [utoa], free of fuel. *)
Lemma utoa_small n : 0 <= n < 10 -> utoa n = [digit_char n].
Proof.
  intros Hn. unfold utoa. simpl.
  rewrite Z.div_small, Z.mod_small by lia. reflexivity.
Qed.

Lemma utoa_step n : 10 <= n -> utoa n = utoa (n / 10) ++ [digit_char (n mod 10)].
Proof.
  intros Hn. unfold utoa at 1. simpl.
  destruct (Z.eqb_spec (n / 10) 0) as [Hq | _].
  - assert (0 < n / 10) by (apply Z.div_str_pos; lia). lia.
  - rewrite utoa_aux_acc. f_equal. unfold utoa.
    pose proof (log2_div10_lt n Hn) as Hlog.
    pose proof (Z.log2_nonneg (n / 10)) as Hnn.
    apply utoa_aux_fuel; [apply Z.div_pos; lia | lia | lia].
Qed.

Lemma digit_char_value d :
  0 <= d < 10 -> Z.of_nat (nat_of_ascii (digit_char d)) - 48 = d.
Proof.
  intros Hd.
  assert (Hcases : d = 0 \/ d = 1 \/ d = 2 \/ d = 3 \/ d = 4 \/
                   d = 5 \/ d = 6 \/ d = 7 \/ d = 8 \/ d = 9) by lia.
  repeat (destruct Hcases as [-> | Hcases]; [reflexivity |]).
  subst d. reflexivity.
Qed.

Lemma digits_value_snoc ds : forall acc c,
  digits_value acc (ds ++ [c]) =
    10 * digits_value acc ds + (Z.of_nat (nat_of_ascii c) - 48).
Proof.
  induction ds as [| d ds IH]; intros acc c; cbn [app digits_value].
  - reflexivity.
  - apply IH.
Qed.

(** The digits printed for [n] read back as [n]. *)
Lemma utoa_value n : 0 <= n -> digits_value 0 (utoa n) = n.
Proof.
  intros Hn. pattern n. apply Zlt_0_ind; [| exact Hn].
  clear n Hn. intros n IH Hn.
  destruct (Z_lt_le_dec n 10) as [Hlt | Hge].
  - rewrite utoa_small by lia. cbn [digits_value].
    rewrite digit_char_value by lia. lia.
  - rewrite utoa_step, digits_value_snoc by lia.
    assert (Hq : 0 <= n / 10 < n).
    { split; [apply Z.div_pos; lia | apply Z.div_lt; lia]. }
    rewrite IH by lia.
    rewrite digit_char_value by (apply Z.mod_pos_bound; lia).
    symmetry. apply Z.div_mod. lia.
Qed.

Lemma utoa_length_pos n : (1 <= length (utoa n))%nat.
Proof.
  unfold utoa. simpl. destruct (n / 10 =? 0); [simpl; lia |].
  rewrite utoa_aux_acc, length_app. simpl. lia.
Qed.

Lemma utoa_two_digits n :
  10 <= n < 100 -> utoa n = [digit_char (n / 10); digit_char (n mod 10)].
Proof.
  intros Hn. rewrite utoa_step by lia.
  assert (0 <= n / 10 < 10).
  { split; [apply Z.div_pos; lia | apply Z.div_lt_upper_bound; lia]. }
  rewrite utoa_small by lia. reflexivity.
Qed.

Lemma utoa_length_ge3 n : 100 <= n -> (3 <= length (utoa n))%nat.
Proof.
  intros Hn. rewrite utoa_step, length_app by lia.
  assert (10 <= n / 10) by (apply Z.div_le_lower_bound; lia).
  rewrite utoa_step, length_app by lia.
  pose proof (utoa_length_pos (n / 10 / 10)). simpl. lia.
Qed.

Lemma utoa_aux_digits fuel : forall n acc,
  Forall (fun c => is_digit c = true) acc ->
  Forall (fun c => is_digit c = true) (utoa_aux fuel n acc).
Proof.
  induction fuel as [| fuel IH]; intros n acc Hacc; simpl; [exact Hacc |].
  assert (Hd : is_digit (digit_char (n mod 10)) = true).
  { apply digit_char_is_digit. apply Z.mod_pos_bound. lia. }
  destruct (n / 10 =? 0); [| apply IH]; constructor; assumption.
Qed.

Lemma utoa_digits n : Forall (fun c => is_digit c = true) (utoa n).
Proof. apply utoa_aux_digits. constructor. Qed.

Lemma pad0_length w ds : length (pad0 w ds) = (w `max` length ds)%nat.
Proof. unfold pad0. rewrite length_app, length_replicate. lia. Qed.

Lemma pad0_not_nul w ds :
  Forall (fun c => is_nul c = false) ds ->
  Forall (fun c => is_nul c = false) (pad0 w ds).
Proof.
  intros Hds. unfold pad0. apply Forall_app. split; [| exact Hds].
  apply Forall_replicate. reflexivity.
Qed.

Lemma utoa_not_nul n : Forall (fun c => is_nul c = false) (utoa n).
Proof.
  eapply Forall_impl; [apply utoa_digits |].
  intros c. apply is_nul_false_digit.
Qed.

Lemma fmt_0d_not_nul w v : Forall (fun c => is_nul c = false) (fmt_0d w v).
Proof.
  unfold fmt_0d. destruct (v <? 0).
  - constructor; [reflexivity |]. apply pad0_not_nul, utoa_not_nul.
  - apply pad0_not_nul, utoa_not_nul.
Qed.

(** A field in [0, 99] prints as exactly its two decimal digits. *)
Lemma fmt_02d_two_digits v :
  0 <= v < 100 -> fmt_0d 2 v = [digit_char (v / 10); digit_char (v mod 10)].
Proof.
  intros Hv. unfold fmt_0d.
  destruct (Z.ltb_spec v 0) as [Hneg | _]; [lia |].
  destruct (Z_lt_le_dec v 10) as [Hlt | Hge].
  - rewrite utoa_small, Z.div_small, Z.mod_small by lia. reflexivity.
  - rewrite utoa_two_digits by lia. reflexivity.
Qed.

Lemma fmt_02d_length_ge2 v : (2 <= length (fmt_0d 2 v))%nat.
Proof.
  unfold fmt_0d. destruct (v <? 0); simpl; rewrite pad0_length.
  - pose proof (utoa_length_pos (- v)). lia.
  - lia.
Qed.

Lemma fmt_02d_length_ge3 v : 100 <= v -> (3 <= length (fmt_0d 2 v))%nat.
Proof.
  intros Hv. unfold fmt_0d.
  destruct (Z.ltb_spec v 0) as [Hneg | _]; [lia |].
  rewrite pad0_length. pose proof (utoa_length_ge3 v Hv). lia.
Qed.

Lemma time_text_not_nul now : Forall (fun c => is_nul c = false) (time_text now).
Proof.
  unfold time_text.
  apply Forall_app; split; [apply fmt_0d_not_nul |].
  constructor; [reflexivity |].
  apply Forall_app; split; [apply fmt_0d_not_nul |].
  constructor; [reflexivity | apply fmt_0d_not_nul].
Qed.

(** What the label is given after the formatting step: at most 15
    characters of the clock text, whatever the buffer held before. *)
Lemma cstr_format_step buf now :
  cstr (format_step buf now) = take 15 (time_text now).
Proof.
  unfold format_step, snprintf, BUF_SIZE. simpl fst.
  rewrite cstr_app_nul.
  - destruct (le_lt_dec (length (time_text now)) 15) as [Hle | Hgt].
    + rewrite !take_ge by lia. reflexivity.
    + f_equal. lia.
  - apply Forall_take, time_text_not_nul.
Qed.

Lemma time_text_in_range now :
  0 <= hour now < 100 -> 0 <= minute now < 100 -> 0 <= second now < 100 ->
  time_text now =
    [digit_char (hour now / 10); digit_char (hour now mod 10); ":"%char;
     digit_char (minute now / 10); digit_char (minute now mod 10); ":"%char;
     digit_char (second now / 10); digit_char (second now mod 10)].
Proof.
  intros Hh Hm Hs. unfold time_text.
  rewrite !fmt_02d_two_digits by assumption. reflexivity.
Qed.

Lemma utoa_length_ge2 n : 10 <= n -> (2 <= length (utoa n))%nat.
Proof.
  intros Hn. rewrite utoa_step, length_app by lia.
  pose proof (utoa_length_pos (n / 10)). simpl. lia.
Qed.

Lemma fmt_02d_length_neg v : v <= -10 -> (3 <= length (fmt_0d 2 v))%nat.
Proof.
  intros Hv. unfold fmt_0d.
  destruct (Z.ltb_spec v 0) as [_ | Hpos]; [| lia].
  cbn [length]. rewrite pad0_length.
  pose proof (utoa_length_ge2 (- v)). lia.
Qed.

Lemma matches_two_digit_fields h m s :
  0 <= h < 100 -> 0 <= m < 100 -> 0 <= s < 100 ->
  matches_dd_dd_dd
    [digit_char (h / 10); digit_char (h mod 10); ":"%char;
     digit_char (m / 10); digit_char (m mod 10); ":"%char;
     digit_char (s / 10); digit_char (s mod 10)] = true.
Proof.
  intros Hh Hm Hs. unfold matches_dd_dd_dd.
  assert (Hq : forall v, 0 <= v < 100 -> 0 <= v / 10 < 10).
  { intros v Hv. split; [apply Z.div_pos; lia | apply Z.div_lt_upper_bound; lia]. }
  assert (Hr : forall v, 0 <= v mod 10 < 10).
  { intros v. apply Z.mod_pos_bound. lia. }
  rewrite !digit_char_is_digit by auto. reflexivity.
Qed.

(** The stored cell count and the position of the terminator. *)
Lemma format_step_unfold buf now :
  format_step buf now =
    take (length (time_text now) `min` 15) (time_text now) ++
    NUL :: drop (S (length (time_text now) `min` 15)) buf.
Proof. reflexivity. Qed.

Lemma format_step_length buf now :
  length buf = BUF_SIZE -> length (format_step buf now) = BUF_SIZE.
Proof.
  intros Hlen. rewrite format_step_unfold, length_app, length_take.
  cbn [length]. rewrite length_drop, Hlen. unfold BUF_SIZE. lia.
Qed.

Lemma format_step_terminator buf now :
  format_step buf now !! (length (time_text now) `min` 15)%nat = Some NUL.
Proof.
  rewrite format_step_unfold. apply list_lookup_middle.
  rewrite length_take. lia.
Qed.

Lemma format_step_app buf rest now :
  length buf = BUF_SIZE ->
  format_step (buf ++ rest) now = format_step buf now ++ rest.
Proof.
  intros Hlen. rewrite !format_step_unfold, <- app_assoc. f_equal.
  cbn [app]. f_equal. apply drop_app_le. rewrite Hlen. unfold BUF_SIZE. lia.
Qed.

Lemma format_step_twice buf now :
  format_step (format_step buf now) now = format_step buf now.
Proof.
  rewrite (format_step_unfold (format_step buf now)).
  rewrite (format_step_unfold buf) at 2. f_equal. f_equal.
  rewrite format_step_unfold.
  set (k := (length (time_text now) `min` 15)%nat).
  set (rest := drop (S k) buf).
  assert (Hk : k = length (take k (time_text now))).
  { rewrite length_take. lia. }
  replace (S k) with (k + 1)%nat by lia.
  rewrite drop_app_add' by exact Hk. reflexivity.
Qed.

End CStrFacts.

(** ** The two functions in closed form *)

(** Runs a monadic body on a symbolic state: only the monad, the calls and
    the record projections are unfolded. *)
Ltac exec_M :=
  cbv beta iota zeta delta
    [setup loop watch_begin psramFound watch_motor motor_onec
     rtc_getDateTime snprintf_buf lv_timer_handler delay
     lv_scr_act lv_obj_clean lv_label_create lv_obj_set_style_text_font
     lv_obj_center lv_label_set_text update_label Serial_begin
     Serial_println set_clock_label get_clock_label get_buf set_buf
     get_lv set_lv call stall when mbind M_bind mret M_ret negb
     clock_label buf lv rtc_reads trace act_scr children last_obj
     label_text label_font label_centered].

Section SketchFacts.

Variable hw : hardware.

Lemma setup_stalls s :
  begin_ok hw = false ->
  setup hw s =
    Stalled (mkState (clock_label s) (buf s) (lv s) (rtc_reads s)
               (trace s ++ failure_calls)).
Proof.
  intros Hb. exec_M. rewrite Hb. exec_M.
  unfold failure_calls, boot_calls. rewrite <- !app_assoc. reflexivity.
Qed.

Lemma setup_returns s :
  begin_ok hw = true ->
  let scr := act_scr (lv s) in
  let p := N.succ (last_obj (lv s)) in
  setup hw s =
    Returned tt
      (mkState p (buf s)
         (mkLvgl scr {[ p := mkLabel placeholder lv_font_montserrat_28 true ]} p)
         (rtc_reads s)
         (trace s ++ setup_calls hw scr p)).
Proof.
  intros Hb scr p. subst scr p. destruct s as [cl b [scr ch lo] r tr].
  unfold setup_calls, boot_calls, display_calls.
  exec_M. rewrite Hb.
  destruct (psram_found hw), (motor_present hw);
    exec_M; rewrite ?N.eqb_refl; exec_M; rewrite ?N.eqb_refl; exec_M;
    rewrite insert_empty, !alter_singleton_eq; exec_M;
    rewrite <- !app_assoc; reflexivity.
Qed.

Lemma loop_returns s :
  let now := rtc_time hw (rtc_reads s) in
  let g := lv s in
  loop hw s =
    Returned tt
      (mkState (clock_label s) (format_step (buf s) now)
         (mkLvgl (act_scr g)
            (alter (fun l => mkLabel
                               (string_of_list_ascii (take 15 (time_text now)))
                               (label_font l) (label_centered l))
               (clock_label s) (children g))
            (last_obj g))
         (S (rtc_reads s))
         (trace s ++ loop_calls (clock_label s) now)).
Proof.
  intros now g. subst now g. destruct s as [cl b [scr ch lo] r tr].
  unfold loop_calls. exec_M. unfold cstring. rewrite cstr_format_step.
  rewrite <- !app_assoc. reflexivity.
Qed.

Lemma loops_calls_S label n :
  loops_calls hw label (S n) =
    loops_calls hw label n ++ loop_calls label (rtc_time hw n).
Proof.
  unfold loops_calls. rewrite seq_S, List.map_app, concat_app.
  cbn [List.map concat Nat.add]. rewrite app_nil_r. reflexivity.
Qed.

(** Every machine state of a run whose [watch.begin()] fails. *)
Lemma run_stalled g0 n :
  begin_ok hw = false ->
  run hw g0 n =
    mkMachine InStall
      (mkState 0%N zero_buf g0 0 (failure_calls ++ replicate n (Delay 100))).
Proof.
  intros Hb. induction n as [| n IH].
  - unfold run, boot. rewrite setup_stalls by exact Hb.
    cbn [resume power_on clock_label buf lv rtc_reads trace replicate app].
    rewrite app_nil_r. reflexivity.
  - cbn [run]. rewrite IH. unfold tick. cbn [ctl st]. exec_M. cbn [resume].
    rewrite <- app_assoc, replicate_S_end. reflexivity.
Qed.

(** Every machine state of a run whose [watch.begin()] succeeds. *)
Lemma run_looping g0 n :
  begin_ok hw = true ->
  let scr := act_scr g0 in
  let p := N.succ (last_obj g0) in
  run hw g0 n =
    mkMachine InLoop
      (mkState p (buf_after hw n)
         (mkLvgl scr
            {[ p := mkLabel (text_after hw n) lv_font_montserrat_28 true ]} p)
         n
         (setup_calls hw scr p ++ loops_calls hw p n)).
Proof.
  intros Hb scr p. induction n as [| n IH].
  - unfold run, boot. rewrite setup_returns by exact Hb.
    cbn [resume power_on clock_label buf lv rtc_reads trace act_scr last_obj
         app buf_after text_after].
    unfold loops_calls. cbn [seq List.map concat]. rewrite app_nil_r.
    reflexivity.
  - cbn [run]. rewrite IH. unfold tick. cbn [ctl st].
    rewrite loop_returns. cbn [resume clock_label buf lv rtc_reads trace
      act_scr children last_obj].
    rewrite alter_singleton_eq, loops_calls_S, <- app_assoc. reflexivity.
Qed.

End SketchFacts.

(** The placeholder is the source literal. *)
Example placeholder_literal : placeholder = "Starting…"%string.
Proof. reflexivity. Qed.

(** Two turns of a working watch, and three of a dead one. *)
Example run_live_trace :
  trace (st (run hw_live g_blank 2)) =
    [ SerialBegin 115200; SerialPrintln "T-Watch S3 (PlatformIO) boot";
      WatchBegin; PsramFound; SerialPrintln "PSRAM OK"; MotorOnec 30;
      LvScrAct; LvObjClean 1; LvScrAct; LvLabelCreate 1;
      LvObjSetStyleTextFont 2 lv_font_montserrat_28 0;
      LvObjCenter 2; LvLabelSetText 2 placeholder;
      RtcGetDateTime; Snprintf 16 23 59 0; LvLabelSetText 2 "23:59:00";
      LvTimerHandler; Delay 1000;
      RtcGetDateTime; Snprintf 16 23 59 1; LvLabelSetText 2 "23:59:01";
      LvTimerHandler; Delay 1000 ].
Proof. vm_compute. reflexivity. Qed.

Example run_dead_trace :
  trace (st (run hw_dead g_blank 3)) =
    [ SerialBegin 115200; SerialPrintln "T-Watch S3 (PlatformIO) boot";
      WatchBegin; SerialPrintln "watch.begin() failed";
      Delay 100; Delay 100; Delay 100 ].
Proof. vm_compute. reflexivity. Qed.

(** ** Counting and filtering calls *)

Section TraceFacts.

Lemma count_app p tr1 tr2 : count p (tr1 ++ tr2) = (count p tr1 + count p tr2)%nat.
Proof. unfold count. rewrite List.filter_app, length_app. reflexivity. Qed.

Lemma without_app p tr1 tr2 : without p (tr1 ++ tr2) = without p tr1 ++ without p tr2.
Proof. apply List.filter_app. Qed.

Lemma filter_replicate_none (p : event -> bool) n e :
  p e = false -> List.filter p (replicate n e) = [].
Proof.
  intros He. induction n as [| n IH]; [reflexivity |].
  cbn [replicate List.filter]. rewrite He. exact IH.
Qed.

Lemma filter_loops_calls_none (p : event -> bool) hw label n :
  (forall now, List.filter p (loop_calls label now) = []) ->
  List.filter p (loops_calls hw label n) = [].
Proof.
  intros Hp. induction n as [| n IH]; [reflexivity |].
  rewrite loops_calls_S, List.filter_app, IH, Hp. reflexivity.
Qed.

End TraceFacts.

(** ** The formatting step *)

Section Formatting.

(** C1: for hour in 0..23, minute in 0..59 and second in 0..59 the
    formatting step leaves in the display buffer a string of exactly 8
    characters of the shape two digits, colon, two digits, colon, two
    digits; (0,5,9) gives "00:05:09" and (23,59,59) gives "23:59:59". *)
Theorem format_in_range (b : list ascii) (h m s : Z) :
  0 <= h <= 23 -> 0 <= m <= 59 -> 0 <= s <= 59 ->
  let out := cstr (format_step b (mkDate h m s)) in
  length out = 8%nat /\ matches_dd_dd_dd out = true /\
  cstring (format_step b (mkDate 0 5 9)) = "00:05:09"%string /\
  cstring (format_step b (mkDate 23 59 59)) = "23:59:59"%string.
Proof.
  intros Hh Hm Hs out. subst out. unfold cstring. rewrite !cstr_format_step.
  rewrite (time_text_in_range (mkDate h m s)) by (cbn [hour minute second]; lia).
  cbn [hour minute second take length].
  split; [reflexivity |].
  split; [apply matches_two_digit_fields; lia |].
  split; vm_compute; reflexivity.
Qed.

Lemma format_in_range_witness :
  (0 <= 12 <= 23 /\ 0 <= 34 <= 59 /\ 0 <= 56 <= 59) /\
  length (cstr (format_step zero_buf (mkDate 12 34 56))) = 8%nat.
Proof.
  split; [lia |]. apply (format_in_range zero_buf 12 34 56); lia.
Defined.

(** C6: formatting is a function of the triple alone.  The string left in
    the buffer does not depend on what the buffer held, and formatting the
    same triple a second time leaves the buffer as the first time did. *)
Theorem format_deterministic (now : RTC_Date) (b1 b2 : list ascii) :
  cstr (format_step b1 now) = cstr (format_step b2 now) /\
  format_step (format_step b1 now) now = format_step b1 now /\
  cstr (format_step (format_step b1 now) now) = cstr (format_step b1 now).
Proof.
  split; [| split].
  - rewrite !cstr_format_step. reflexivity.
  - apply format_step_twice.
  - rewrite format_step_twice. reflexivity.
Qed.

(** C9: whatever three integers the clock returns, negative and
    out-of-range ones included, the formatting step stores into at most 16
    cells, leaves the memory after the 16-byte buffer as it was, and leaves
    a terminator inside the buffer. *)
Theorem snprintf_never_overflows (b rest : list ascii) (now : RTC_Date) :
  length b = BUF_SIZE ->
  let stored := snprintf_stored BUF_SIZE (time_text now) in
  (1 <= stored <= 16)%nat /\
  fst (snprintf (b ++ rest) BUF_SIZE (time_text now)) = format_step b now ++ rest /\
  length (format_step b now) = BUF_SIZE /\
  format_step b now !! (stored - 1)%nat = Some NUL /\
  drop stored (format_step b now) = drop stored b /\
  nul_terminated (format_step b now).
Proof.
  intros Hlen stored. subst stored. unfold snprintf_stored, BUF_SIZE.
  set (k := (length (time_text now) `min` 15)%nat).
  assert (Hk : (k <= 15)%nat) by (subst k; lia).
  split; [lia |].
  split; [apply (format_step_app b rest now Hlen) |].
  split; [apply format_step_length; exact Hlen |].
  split; [replace (S k - 1)%nat with k by lia; apply format_step_terminator |].
  split.
  - rewrite format_step_unfold. fold k.
    replace (S k) with (k + 1)%nat by lia.
    rewrite drop_app_add' by (rewrite length_take; lia). reflexivity.
  - exists k. split; [| apply format_step_terminator].
    rewrite format_step_length by exact Hlen. unfold BUF_SIZE. lia.
Qed.

Lemma snprintf_never_overflows_witness :
  length zero_buf = BUF_SIZE /\
  fst (snprintf (zero_buf ++ ["x"%char]) BUF_SIZE
         (time_text (mkDate (-2147483648) 2147483647 (-1)))) =
    format_step zero_buf (mkDate (-2147483648) 2147483647 (-1)) ++ ["x"%char].
Proof.
  split; [reflexivity |].
  apply (snprintf_never_overflows zero_buf ["x"%char]
           (mkDate (-2147483648) 2147483647 (-1))).
  reflexivity.
Defined.

Lemma matches_length w : matches_dd_dd_dd w = true -> length w = 8%nat.
Proof.
  intros Hw.
  do 8 (destruct w as [| ? w]; [discriminate Hw |]).
  destruct w; [reflexivity | discriminate Hw].
Qed.

(** C4, as stated, fails: hour 100 is printed with three characters, so
    the displayed string is not a truncation of any well-formed
    eight-character text. *)
Lemma wide_field_not_truncation :
  cstring (format_step zero_buf (mkDate 100 0 0)) = "100:00:00"%string /\
  length (fmt_0d 2 100) = 3%nat /\
  ~ (exists w, matches_dd_dd_dd w = true /\
               cstr (format_step zero_buf (mkDate 100 0 0)) `prefix_of` w).
Proof.
  split; [vm_compute; reflexivity |].
  split; [vm_compute; reflexivity |].
  intros (w & Hw & Hpre).
  apply prefix_length in Hpre. rewrite (matches_length w Hw) in Hpre.
  rewrite cstr_format_step in Hpre. vm_compute in Hpre. lia.
Qed.

(** C4, amended: the displayed string is the first 15 characters of the
    three fields joined by colons, and two is the minimum width of a field,
    not its width: a value in 0..99 is printed as its two digits, a value in
    -9..-1 as a sign and a digit, and any other value takes three characters
    or more. *)
Theorem fields_have_minimum_width (b : list ascii) (now : RTC_Date) (v : Z) :
  cstr (format_step b now) = take 15 (time_text now) /\
  (2 <= length (fmt_0d 2 v))%nat /\
  (0 <= v < 100 -> fmt_0d 2 v = [digit_char (v / 10); digit_char (v mod 10)]) /\
  (-10 < v < 0 -> fmt_0d 2 v = ["-"%char; digit_char (- v)]) /\
  (100 <= v \/ v <= -10 -> (3 <= length (fmt_0d 2 v))%nat).
Proof.
  split; [apply cstr_format_step |].
  split; [apply fmt_02d_length_ge2 |].
  split; [apply fmt_02d_two_digits |].
  split.
  - intros Hv. unfold fmt_0d.
    destruct (Z.ltb_spec v 0) as [_ | Hpos]; [| lia].
    rewrite utoa_small by lia. reflexivity.
  - intros [Hv | Hv]; [apply fmt_02d_length_ge3 | apply fmt_02d_length_neg]; exact Hv.
Qed.

Lemma fields_have_minimum_width_witness :
  (100 <= 255 \/ 255 <= -10) /\ (3 <= length (fmt_0d 2 255))%nat.
Proof.
  split; [lia |].
  apply (fields_have_minimum_width zero_buf (mkDate 255 0 0) 255). lia.
Defined.

End Formatting.

(** ** The run of the sketch *)

Section Run.

Lemma buf_after_length hw n : length (buf_after hw n) = BUF_SIZE.
Proof.
  induction n as [| n IH]; cbn [buf_after].
  - reflexivity.
  - apply format_step_length. exact IH.
Qed.

Lemma tick_keeps_control hw m : ctl (tick hw m) = ctl m.
Proof.
  unfold tick. destruct (ctl m).
  - exec_M. reflexivity.
  - rewrite loop_returns. reflexivity.
Qed.

Lemma run_control hw g0 n :
  ctl (run hw g0 n) = if begin_ok hw then InLoop else InStall.
Proof.
  destruct (begin_ok hw) eqn:Hb.
  - rewrite run_looping by exact Hb. reflexivity.
  - rewrite run_stalled by exact Hb. reflexivity.
Qed.

(** C2: when [watch.begin()] reports failure, control is in the stall loop
    after [setup]'s first calls and at every later step: the calls made are
    the boot messages, the failed [begin], the failure message and then
    [delay(100)] only; no display call is ever made, the label pointer stays
    null, LVGL stays as it was and the clock is never read.  Conversely the
    stall loop is entered only when [watch.begin()] has failed. *)
Theorem begin_failure_stalls_forever (hw : hardware) (g0 : lvgl) (n : nat) :
  begin_ok hw = false ->
  let m := run hw g0 n in
  ctl m = InStall /\
  trace (st m) = failure_calls ++ replicate n (Delay 100) /\
  count is_display (trace (st m)) = 0%nat /\
  rtc_reads (st m) = 0%nat /\
  clock_label (st m) = 0%N /\ lv (st m) = g0 /\ buf (st m) = zero_buf /\
  (forall hw' g0' k, ctl (run hw' g0' k) = InStall -> begin_ok hw' = false).
Proof.
  intros Hb m. subst m. rewrite run_stalled by exact Hb. cbn [ctl st trace
    rtc_reads clock_label lv buf].
  repeat split.
  - rewrite count_app. unfold count at 2.
    rewrite filter_replicate_none by reflexivity. reflexivity.
  - intros hw' g0' k Hk. rewrite run_control in Hk.
    destruct (begin_ok hw'); [discriminate Hk | reflexivity].
Qed.

Lemma begin_failure_stalls_forever_witness :
  begin_ok hw_dead = false /\ ctl (run hw_dead g_blank 3) = InStall.
Proof.
  split; [reflexivity |].
  apply (begin_failure_stalls_forever hw_dead g_blank 3). reflexivity.
Defined.

(** C5, as stated, fails: after a turn in which the clock returned hour
    100 the buffer holds "100:00:00", which is not of the shape HH:MM:SS. *)
Lemma buffer_not_always_hhmmss :
  let hw := mkHardware true false false false (fun _ => mkDate 100 0 0) in
  let b := buf (st (run hw g_blank 1)) in
  begin_ok hw = true /\
  cstring b = "100:00:00"%string /\
  matches_dd_dd_dd (cstr b) = false.
Proof. vm_compute. repeat split. Qed.

(** C5, amended: after every turn of [loop] the buffer still has its 16
    cells, is the previous buffer overwritten in place by the formatting
    step, contains a terminator, and holds the first 15 characters of the
    clock text of the triple just read; when the three fields are in 0..99
    (so in particular in their natural ranges) that is exactly the
    zero-padded HH:MM:SS text. *)
Theorem buffer_after_iteration (hw : hardware) (g0 : lvgl) (n : nat) :
  begin_ok hw = true ->
  let now := rtc_time hw n in
  let b := buf (st (run hw g0 (S n))) in
  length (buf (st (run hw g0 n))) = BUF_SIZE /\
  length b = BUF_SIZE /\
  b = format_step (buf (st (run hw g0 n))) now /\
  nul_terminated b /\
  cstr b = take 15 (time_text now) /\
  (0 <= hour now < 100 -> 0 <= minute now < 100 -> 0 <= second now < 100 ->
   cstr b = time_text now /\ matches_dd_dd_dd (cstr b) = true).
Proof.
  intros Hb now b. subst now b. rewrite !run_looping by exact Hb.
  cbn [st buf buf_after].
  pose proof (buf_after_length hw n) as Hlen.
  split; [exact Hlen |].
  split; [apply format_step_length; exact Hlen |].
  split; [reflexivity |].
  split.
  - exists (length (time_text (rtc_time hw n)) `min` 15)%nat.
    split; [| apply format_step_terminator].
    rewrite format_step_length by exact Hlen. unfold BUF_SIZE. lia.
  - split; [apply cstr_format_step |].
    intros Hh Hm Hs. rewrite cstr_format_step.
    rewrite time_text_in_range by assumption. cbn [take].
    split; [reflexivity | apply matches_two_digit_fields; assumption].
Qed.

Lemma buffer_after_iteration_witness :
  begin_ok hw_live = true /\
  matches_dd_dd_dd (cstr (buf (st (run hw_live g_blank 3)))) = true.
Proof.
  split; [reflexivity |].
  destruct (buffer_after_iteration hw_live g_blank 2 eq_refl)
    as (_ & _ & _ & _ & _ & Hrange).
  apply Hrange; simpl; lia.
Defined.

(** What the turns of [loop] leave behind depends on the clock alone. *)
Lemma buf_after_clock hw1 hw2 n :
  rtc_time hw1 = rtc_time hw2 -> buf_after hw1 n = buf_after hw2 n.
Proof.
  intros Hrtc. induction n as [| n IH]; cbn [buf_after]; [reflexivity |].
  rewrite IH, Hrtc. reflexivity.
Qed.

Lemma text_after_clock hw1 hw2 n :
  rtc_time hw1 = rtc_time hw2 -> text_after hw1 n = text_after hw2 n.
Proof. intros Hrtc. destruct n; cbn [text_after]; [| rewrite Hrtc]; reflexivity. Qed.

Lemma loops_calls_clock hw1 hw2 label n :
  rtc_time hw1 = rtc_time hw2 -> loops_calls hw1 label n = loops_calls hw2 label n.
Proof. intros Hrtc. unfold loops_calls. rewrite Hrtc. reflexivity. Qed.

(** Rewrites what a changed answer cannot touch back to the original
    hardware. *)
Ltac same_clock hw' hw :=
  rewrite ?(buf_after_clock hw' hw), ?(text_after_clock hw' hw),
    ?(loops_calls_clock hw' hw) by reflexivity.

Lemma filter_pulse_setup_calls hw scr p :
  List.filter is_pulse (setup_calls hw scr p) =
    if motor_present hw then [MotorOnec 30] else [].
Proof.
  unfold setup_calls. destruct (psram_found hw), (motor_present hw); reflexivity.
Qed.

Lemma without_pulse_setup_calls hw scr p b :
  without is_pulse (setup_calls (with_motor b hw) scr p) =
    without is_pulse (setup_calls hw scr p).
Proof.
  unfold setup_calls, with_motor. cbn [psram_found motor_present].
  destruct (psram_found hw), (motor_present hw), b; reflexivity.
Qed.

Lemma without_serial_setup_calls hw scr p b :
  without is_serial (setup_calls (with_psram b hw) scr p) =
    without is_serial (setup_calls hw scr p).
Proof.
  unfold setup_calls, with_psram. cbn [psram_found motor_present].
  destruct (psram_found hw), (motor_present hw), b; reflexivity.
Qed.

(** C7: after a successful [watch.begin()] the motor is pulsed exactly
    once, for 30, when [watch.motor] is set and not at all when it is null,
    during [setup] and never again; apart from that one recorded call the
    run is the same with and without a motor, and it is the same whether
    the pulse would have succeeded or not. *)
Theorem motor_pulse_once_if_present
  (hw : hardware) (g0 : lvgl) (n : nat) (b : bool) :
  begin_ok hw = true ->
  let m := run hw g0 n in
  List.filter is_pulse (trace (st m)) =
    (if motor_present hw then [MotorOnec 30] else []) /\
  count is_pulse (trace (st m)) = (if motor_present hw then 1 else 0)%nat /\
  ctl (run (with_motor b hw) g0 n) = ctl m /\
  same_but_trace (st (run (with_motor b hw) g0 n)) (st m) /\
  without is_pulse (trace (st (run (with_motor b hw) g0 n))) =
    without is_pulse (trace (st m)) /\
  run (with_onec b hw) g0 n = m.
Proof.
  intros Hb m. subst m.
  assert (Hfilter : List.filter is_pulse (trace (st (run hw g0 n))) =
                    if motor_present hw then [MotorOnec 30] else []).
  { rewrite run_looping by exact Hb. cbn [st trace].
    rewrite List.filter_app, filter_pulse_setup_calls.
    rewrite filter_loops_calls_none by reflexivity. apply app_nil_r. }
  split; [exact Hfilter |].
  split; [unfold count; rewrite Hfilter; destruct (motor_present hw); reflexivity |].
  rewrite (run_looping (with_motor b hw)), (run_looping hw) by exact Hb.
  rewrite (run_looping (with_onec b hw)) by exact Hb.
  same_clock (with_motor b hw) hw. same_clock (with_onec b hw) hw.
  cbn [ctl st trace].
  split; [reflexivity |].
  split; [repeat split |].
  split; [| reflexivity].
  rewrite !without_app, without_pulse_setup_calls. reflexivity.
Qed.

Lemma motor_pulse_once_if_present_witness :
  begin_ok hw_live = true /\
  count is_pulse (trace (st (run hw_live g_blank 4))) = 1%nat.
Proof.
  split; [reflexivity |].
  destruct (motor_pulse_once_if_present hw_live g_blank 4 false eq_refl)
    as (_ & Hcount & _).
  exact Hcount.
Defined.

(** C8: the answer of [psramFound()] changes nothing but the serial output.
    With either answer the run is in the same place with the same label
    pointer, buffer, LVGL objects and clock reads, and makes the same calls
    outside the serial port; the serial output itself is the boot line
    followed by the PSRAM line when memory was found (or by the failure
    line when [watch.begin()] failed). *)
Theorem psram_only_affects_serial
  (hw : hardware) (g0 : lvgl) (n : nat) (b : bool) :
  let m1 := run (with_psram b hw) g0 n in
  let m2 := run hw g0 n in
  ctl m1 = ctl m2 /\
  same_but_trace (st m1) (st m2) /\
  without is_serial (trace (st m1)) = without is_serial (trace (st m2)) /\
  List.filter is_serial (trace (st m2)) =
    [SerialBegin 115200; SerialPrintln "T-Watch S3 (PlatformIO) boot"] ++
    (if begin_ok hw
     then if psram_found hw then [SerialPrintln "PSRAM OK"] else []
     else [SerialPrintln "watch.begin() failed"]).
Proof.
  intros m1 m2. subst m1 m2. destruct (begin_ok hw) eqn:Hb.
  - rewrite (run_looping (with_psram b hw)), (run_looping hw) by exact Hb.
    same_clock (with_psram b hw) hw.
    cbn [ctl st trace].
    split; [reflexivity |].
    split; [repeat split |].
    split.
    + rewrite !without_app, without_serial_setup_calls. reflexivity.
    + rewrite List.filter_app, filter_loops_calls_none by reflexivity.
      unfold setup_calls.
      destruct (psram_found hw), (motor_present hw); reflexivity.
  - rewrite (run_stalled (with_psram b hw)), (run_stalled hw) by exact Hb.
    cbn [ctl st trace].
    split; [reflexivity |].
    split; [repeat split |].
    split; [reflexivity |].
    rewrite List.filter_app, filter_replicate_none by reflexivity.
    reflexivity.
Qed.

End Run.

(** ** What the display shows, read back *)

Section ReadBack.

Lemma digit_not_minus c : is_digit c = true -> Ascii.eqb c "-" = false.
Proof.
  intros Hd. destruct (Ascii.eqb_spec c "-") as [-> | _]; [discriminate Hd | reflexivity].
Qed.

Lemma digit_not_colon c : is_digit c = true -> Ascii.eqb c ":" = false.
Proof.
  intros Hd. destruct (Ascii.eqb_spec c ":") as [-> | _]; [discriminate Hd | reflexivity].
Qed.

Lemma pad0_digits w ds :
  Forall (fun c => is_digit c = true) ds ->
  Forall (fun c => is_digit c = true) (pad0 w ds).
Proof.
  intros Hds. unfold pad0. apply Forall_app. split; [| exact Hds].
  apply Forall_replicate. reflexivity.
Qed.

(** Leading zeros do not change the value read. *)
Lemma digits_value_pad0 w ds : digits_value 0 (pad0 w ds) = digits_value 0 ds.
Proof.
  unfold pad0. induction (w - length ds)%nat as [| k IH]; [reflexivity |].
  cbn [replicate app digits_value]. exact IH.
Qed.

Lemma atoi_digits ds :
  Forall (fun c => is_digit c = true) ds -> atoi ds = digits_value 0 ds.
Proof.
  intros Hds. destruct Hds as [| c ds Hc _]; [reflexivity |].
  unfold atoi. rewrite (digit_not_minus c Hc). reflexivity.
Qed.

(** A printed field reads back as the number printed, whatever the width
    and the sign. *)
Lemma atoi_fmt_0d w v : atoi (fmt_0d w v) = v.
Proof.
  unfold fmt_0d. destruct (Z.ltb_spec v 0) as [Hneg | Hpos].
  - unfold atoi. rewrite Ascii.eqb_refl.
    rewrite digits_value_pad0, utoa_value by lia. lia.
  - rewrite atoi_digits by apply pad0_digits, utoa_digits.
    rewrite digits_value_pad0. apply utoa_value. exact Hpos.
Qed.

Lemma fmt_0d_clock_chars w v :
  Forall (fun c => is_digit c = true \/ c = "-"%char) (fmt_0d w v).
Proof.
  unfold fmt_0d. destruct (v <? 0).
  - constructor; [right; reflexivity |].
    eapply Forall_impl; [apply pad0_digits, utoa_digits |]. intros c Hc. left. exact Hc.
  - eapply Forall_impl; [apply pad0_digits, utoa_digits |]. intros c Hc. left. exact Hc.
Qed.

Lemma fmt_0d_no_colon w v :
  Forall (fun c => Ascii.eqb c ":" = false) (fmt_0d w v).
Proof.
  eapply Forall_impl; [apply fmt_0d_clock_chars |].
  intros c [Hd | ->]; [apply digit_not_colon; exact Hd | reflexivity].
Qed.

Lemma field_colon f rest :
  Forall (fun c => Ascii.eqb c ":" = false) f ->
  field (f ++ ":"%char :: rest) = (f, rest).
Proof.
  induction 1 as [| c f Hc _ IH]; cbn [app field].
  - reflexivity.
  - rewrite Hc, IH. reflexivity.
Qed.

Lemma field_end f :
  Forall (fun c => Ascii.eqb c ":" = false) f -> field f = (f, []).
Proof.
  induction 1 as [| c f Hc _ IH]; cbn [field].
  - reflexivity.
  - rewrite Hc, IH. reflexivity.
Qed.

Lemma parse_time_text now : parse_time (time_text now) = now.
Proof.
  destruct now as [h m s]. unfold parse_time, time_text. cbn [hour minute second].
  rewrite field_colon by apply fmt_0d_no_colon.
  rewrite field_colon by apply fmt_0d_no_colon.
  rewrite field_end by apply fmt_0d_no_colon.
  cbn [fst]. rewrite !atoi_fmt_0d. reflexivity.
Qed.

Lemma time_text_length now :
  length (time_text now) =
    (length (fmt_0d 2 (hour now)) + length (fmt_0d 2 (minute now)) +
     length (fmt_0d 2 (second now)) + 2)%nat.
Proof. unfold time_text. rewrite !length_app. cbn [length]. rewrite length_app. cbn [length]. lia. Qed.

Lemma time_text_length_ge8 now : (8 <= length (time_text now))%nat.
Proof.
  rewrite time_text_length.
  pose proof (fmt_02d_length_ge2 (hour now)).
  pose proof (fmt_02d_length_ge2 (minute now)).
  pose proof (fmt_02d_length_ge2 (second now)). lia.
Qed.

Lemma utoa_length_le k : forall n,
  0 <= n < 10 ^ Z.of_nat (S k) -> (length (utoa n) <= S k)%nat.
Proof.
  induction k as [| k IH]; intros n Hn.
  - rewrite utoa_small by (change (10 ^ Z.of_nat 1) with 10 in Hn; lia).
    reflexivity.
  - destruct (Z_lt_le_dec n 10) as [Hlt | Hge].
    + rewrite utoa_small by lia. cbn [length]. lia.
    + rewrite utoa_step, length_app by lia. cbn [length].
      assert (Hq : 0 <= n / 10 < 10 ^ Z.of_nat (S k)).
      { split; [apply Z.div_pos; lia |].
        apply Z.div_lt_upper_bound; [lia |].
        replace (Z.of_nat (S (S k))) with (Z.succ (Z.of_nat (S k))) in Hn by lia.
        rewrite Z.pow_succ_r in Hn by lia. lia. }
      specialize (IH _ Hq). lia.
Qed.

Lemma fmt_02d_length_le4 v : -999 <= v <= 9999 -> (length (fmt_0d 2 v) <= 4)%nat.
Proof.
  intros Hv. unfold fmt_0d. destruct (Z.ltb_spec v 0) as [Hneg | Hpos].
  - cbn [length]. rewrite pad0_length.
    pose proof (utoa_length_le 2 (- v)) as Hlen.
    change (10 ^ Z.of_nat 3) with 1000 in Hlen. cbn [Nat.sub]. lia.
  - rewrite pad0_length.
    pose proof (utoa_length_le 3 v) as Hlen.
    change (10 ^ Z.of_nat 4) with 10000 in Hlen. lia.
Qed.

Lemma take_all_iff {A} (l : list A) n : take n l = l <-> (length l <= n)%nat.
Proof.
  split.
  - intros Heq. rewrite <- Heq at 1. rewrite length_take. lia.
  - apply take_ge.
Qed.

(** X1: the complete text that [snprintf] is asked to print determines
    the three fields: read back as three decimal integers separated by
    colons it gives the triple that was printed, for every integer,
    negative and out-of-range ones included; so two different triples never
    have the same complete text. *)
Theorem clock_text_reads_back (now now' : RTC_Date) :
  parse_time (time_text now) = now /\
  (time_text now = time_text now' -> now = now').
Proof.
  split; [apply parse_time_text |].
  intros Heq. rewrite <- (parse_time_text now), <- (parse_time_text now'), Heq.
  reflexivity.
Qed.

Lemma clock_text_reads_back_witness :
  time_text (mkDate (-5) 7 123) = time_text (mkDate (-5) 7 123) /\
  parse_time (time_text (mkDate (-5) 7 123)) = mkDate (-5) 7 123.
Proof.
  split; [reflexivity |].
  exact (proj1 (clock_text_reads_back (mkDate (-5) 7 123) (mkDate (-5) 7 123))).
Defined.

(** X2: when the complete text has at most 15 characters the string shown
    in the label reads back as the triple the clock returned, so two
    triples that both fit are shown alike only if they are equal.  The
    bound matters: past 15 characters different triples can be shown
    alike. *)
Theorem display_unambiguous_when_it_fits
  (b1 b2 : list ascii) (now1 now2 : RTC_Date) :
  (length (time_text now1) <= 15)%nat ->
  (length (time_text now2) <= 15)%nat ->
  parse_time (cstr (format_step b1 now1)) = now1 /\
  (cstr (format_step b1 now1) = cstr (format_step b2 now2) -> now1 = now2) /\
  cstr (format_step b1 (mkDate 1000000 1000000 1)) =
    cstr (format_step b2 (mkDate 1000000 1000000 2)).
Proof.
  intros H1 H2. rewrite !cstr_format_step.
  rewrite (take_ge (time_text now1)), (take_ge (time_text now2)) by assumption.
  split; [apply parse_time_text |].
  split; [| vm_compute; reflexivity].
  intros Heq. rewrite <- (parse_time_text now1), <- (parse_time_text now2), Heq.
  reflexivity.
Qed.

Lemma display_unambiguous_when_it_fits_witness :
  ((length (time_text (mkDate 255 255 255)) <= 15)%nat /\
   (length (time_text (mkDate 7 8 9)) <= 15)%nat) /\
  parse_time (cstr (format_step zero_buf (mkDate 255 255 255))) = mkDate 255 255 255.
Proof.
  split; [split; vm_compute; lia |].
  refine (proj1 (display_unambiguous_when_it_fits zero_buf zero_buf
                   (mkDate 255 255 255) (mkDate 7 8 9) _ _)); vm_compute; lia.
Defined.

(** X3: the value [snprintf] returns, which [loop] drops, tells whether
    the text was cut: the string left in the buffer is the complete text
    exactly when that value is below 16, and in every case the string has
    the smaller of that value and 15 as its length. *)
Theorem dropped_return_value_tells_truncation (b : list ascii) (now : RTC_Date) :
  let ret := snd (snprintf b BUF_SIZE (time_text now)) in
  (cstr (format_step b now) = time_text now <-> ret < 16) /\
  Z.of_nat (length (cstr (format_step b now))) = Z.min ret 15.
Proof.
  intros ret. subst ret. cbn [snprintf snd]. rewrite cstr_format_step.
  split.
  - rewrite take_all_iff. lia.
  - rewrite length_take. lia.
Qed.

(** X4: when every field is between -999 and 9999, which covers every
    value a byte can hold, nothing is cut: the label shows the complete
    text, of 8 to 14 characters. *)
Theorem display_complete_in_range (b : list ascii) (now : RTC_Date) :
  -999 <= hour now <= 9999 ->
  -999 <= minute now <= 9999 ->
  -999 <= second now <= 9999 ->
  cstr (format_step b now) = time_text now /\
  (8 <= length (time_text now) <= 14)%nat.
Proof.
  intros Hh Hm Hs.
  assert (Hlen : (8 <= length (time_text now) <= 14)%nat).
  { split; [apply time_text_length_ge8 |]. rewrite time_text_length.
    pose proof (fmt_02d_length_le4 _ Hh). pose proof (fmt_02d_length_le4 _ Hm).
    pose proof (fmt_02d_length_le4 _ Hs). lia. }
  split; [| exact Hlen].
  rewrite cstr_format_step. apply take_ge. lia.
Qed.

Lemma display_complete_in_range_witness :
  (-999 <= 255 <= 9999 /\ -999 <= -128 <= 9999 /\ -999 <= 0 <= 9999) /\
  cstr (format_step zero_buf (mkDate 255 (-128) 0)) = time_text (mkDate 255 (-128) 0).
Proof.
  split; [lia |].
  refine (proj1 (display_complete_in_range zero_buf (mkDate 255 (-128) 0) _ _ _));
    cbn [hour minute second]; lia.
Defined.

(** X5: whatever the clock returns, the string shown has between 8 and 15
    characters, all of them digits, minus signs or colons. *)
Theorem display_length_and_alphabet (b : list ascii) (now : RTC_Date) :
  (8 <= length (cstr (format_step b now)) <= 15)%nat /\
  Forall (fun c => is_clock_char c = true) (cstr (format_step b now)).
Proof.
  rewrite cstr_format_step. split.
  - rewrite length_take. pose proof (time_text_length_ge8 now). lia.
  - apply Forall_take. unfold time_text.
    assert (Hf : forall v, Forall (fun c => is_clock_char c = true) (fmt_0d 2 v)).
    { intros v. eapply Forall_impl; [apply fmt_0d_clock_chars |].
      unfold is_clock_char. intros c [Hd | ->]; [rewrite Hd |]; reflexivity. }
    apply Forall_app; split; [apply Hf |].
    constructor; [reflexivity |].
    apply Forall_app; split; [apply Hf |].
    constructor; [reflexivity | apply Hf].
Qed.

End ReadBack.

(** ** Invariants of the whole run *)

Section RunInvariants.

Lemma format_step_last_cell b now :
  length b = BUF_SIZE -> b !! 15%nat = Some NUL ->
  format_step b now !! 15%nat = Some NUL.
Proof.
  intros Hlen Hlast. rewrite format_step_unfold.
  set (k := (length (time_text now) `min` 15)%nat).
  assert (Hk : length (take k (time_text now)) = k).
  { rewrite length_take. lia. }
  destruct (decide (k = 15%nat)) as [Heq | Hne].
  - apply list_lookup_middle. rewrite Hk. symmetry. exact Heq.
  - assert (Hlt : (k < 15)%nat) by lia.
    rewrite lookup_app_r by lia. rewrite Hk.
    replace (15 - k)%nat with (S (14 - k)) by lia. rewrite lookup_cons.
    rewrite lookup_drop. replace (S k + (14 - k))%nat with 15%nat by lia.
    exact Hlast.
Qed.

Lemma buf_after_last_cell hw n : buf_after hw n !! 15%nat = Some NUL.
Proof.
  induction n as [| n IH]; cbn [buf_after].
  - reflexivity.
  - apply format_step_last_cell; [apply buf_after_length | exact IH].
Qed.

Lemma run_buf hw g0 n :
  buf (st (run hw g0 n)) = if begin_ok hw then buf_after hw n else zero_buf.
Proof.
  destruct (begin_ok hw) eqn:Hb.
  - rewrite run_looping by exact Hb. reflexivity.
  - rewrite run_stalled by exact Hb. reflexivity.
Qed.

(** X6: at every step of every run, stalled or looping and before the
    first turn too, the buffer has its 16 cells and the last one holds the
    terminator, so reading the buffer as a string never runs past its
    end. *)
Theorem last_cell_always_nul (hw : hardware) (g0 : lvgl) (n : nat) :
  let b := buf (st (run hw g0 n)) in
  length b = BUF_SIZE /\ b !! 15%nat = Some NUL /\
  (length (cstr b) <= 15)%nat.
Proof.
  intros b. subst b. rewrite run_buf.
  assert (Hcstr : forall c : list ascii,
            length c = BUF_SIZE -> c !! 15%nat = Some NUL -> (length (cstr c) <= 15)%nat).
  { intros c Hlen Hlast. unfold BUF_SIZE in Hlen.
    do 16 (destruct c as [| ? c]; [discriminate Hlen |]).
    cbn in Hlast. injection Hlast as ->.
    cbn [cstr]. unfold is_nul at 16. rewrite Ascii.eqb_refl.
    repeat match goal with
           | |- context [if is_nul ?a then _ else _] => destruct (is_nul a)
           end; cbn [length]; lia. }
  destruct (begin_ok hw).
  - pose proof (buf_after_length hw n). pose proof (buf_after_last_cell hw n). auto.
  - split; [reflexivity |]. split; [reflexivity |]. vm_compute. lia.
Qed.

Lemma slept_app tr1 tr2 : slept (tr1 ++ tr2) = slept tr1 + slept tr2.
Proof.
  induction tr1 as [| e tr1 IH]; [reflexivity |].
  cbn [app slept]. destruct e; rewrite IH; lia.
Qed.

Lemma slept_setup_calls hw scr p : slept (setup_calls hw scr p) = 0.
Proof.
  unfold setup_calls. destruct (psram_found hw), (motor_present hw); reflexivity.
Qed.

Lemma slept_loops_calls hw label n :
  slept (loops_calls hw label n) = 1000 * Z.of_nat n.
Proof.
  induction n as [| n IH]; [reflexivity |].
  rewrite loops_calls_S, slept_app, IH. cbn [loop_calls slept]. lia.
Qed.

Lemma slept_stall n : slept (replicate n (Delay 100)) = 100 * Z.of_nat n.
Proof.
  induction n as [| n IH]; [reflexivity |].
  cbn [replicate slept]. rewrite IH. lia.
Qed.

(** X7: [setup] never sleeps before it returns, each turn of [loop] asks
    for 1000 ms and each turn of the stall loop for 100 ms: after [n] turns
    the delays asked for add up to 1000 n ms when [watch.begin()] succeeded
    and to 100 n ms when it failed. *)
Theorem sleep_per_turn (hw : hardware) (g0 : lvgl) (n : nat) :
  slept (trace (st (run hw g0 n))) =
    (if begin_ok hw then 1000 else 100) * Z.of_nat n.
Proof.
  destruct (begin_ok hw) eqn:Hb.
  - rewrite run_looping by exact Hb. cbn [st trace].
    rewrite slept_app, slept_setup_calls, slept_loops_calls. lia.
  - rewrite run_stalled by exact Hb. cbn [st trace].
    rewrite slept_app, slept_stall. reflexivity.
Qed.

(** X8: in every run, stalled or looping, the serial port is opened at
    115200 before anything else, the boot line is printed next and
    [watch.begin()] is called third; neither the port nor the watch is
    ever started a second time, so a failed [begin] is never retried. *)
Theorem hardware_started_once (hw : hardware) (g0 : lvgl) (n : nat) :
  let tr := trace (st (run hw g0 n)) in
  take 3 tr = boot_calls /\
  count is_watch_begin tr = 1%nat /\
  count is_serial_begin tr = 1%nat.
Proof.
  intros tr. subst tr. destruct (begin_ok hw) eqn:Hb.
  - rewrite run_looping by exact Hb. cbn [st trace].
    rewrite !count_app. unfold count at 2 4.
    rewrite !filter_loops_calls_none by reflexivity.
    unfold setup_calls. destruct (psram_found hw), (motor_present hw);
      repeat split; reflexivity.
  - rewrite run_stalled by exact Hb. cbn [st trace].
    rewrite !count_app. unfold count at 2 4.
    rewrite !filter_replicate_none by reflexivity.
    repeat split; reflexivity.
Qed.

Lemma string_of_list_ascii_length l :
  String.length (string_of_list_ascii l) = length l.
Proof. induction l as [| c l IH]; cbn; [reflexivity | rewrite IH; reflexivity]. Qed.

(** X9: once [loop] has run, the label never shows the placeholder again:
    after every turn its text is a string of 8 to 15 characters different
    from the placeholder. *)
Theorem placeholder_never_returns (hw : hardware) (g0 : lvgl) (n : nat) :
  begin_ok hw = true ->
  let s := st (run hw g0 (S n)) in
  exists l, children (lv s) !! clock_label s = Some l /\
            label_text l <> placeholder /\
            (8 <= String.length (label_text l) <= 15)%nat.
Proof.
  intros Hb s. subst s. rewrite run_looping by exact Hb.
  cbn [st lv children clock_label]. rewrite lookup_singleton_eq.
  eexists. split; [reflexivity |]. cbn [label_text text_after].
  set (t := time_text (rtc_time hw n)).
  split.
  - intros Heq. apply (f_equal list_ascii_of_string) in Heq.
    rewrite list_ascii_of_string_of_list_ascii in Heq.
    assert (Hlen : (8 <= length (take 15 t))%nat).
    { rewrite length_take. pose proof (time_text_length_ge8 (rtc_time hw n)).
      subst t. lia. }
    assert (Hchars : Forall (fun c => is_digit c = true \/ c = "-"%char \/ c = ":"%char)
                       (take 15 t)).
    { apply Forall_take. subst t. unfold time_text.
      assert (Hf : forall v, Forall (fun c => is_digit c = true \/ c = "-"%char \/ c = ":"%char)
                               (fmt_0d 2 v)).
      { intros v. eapply Forall_impl; [apply fmt_0d_clock_chars |].
        intros c [Hd | Hm]; auto. }
      apply Forall_app; split; [apply Hf |]. constructor; [auto |].
      apply Forall_app; split; [apply Hf |]. constructor; [auto | apply Hf]. }
    rewrite Heq in Hchars. vm_compute in Hchars.
    apply Forall_inv in Hchars.
    destruct Hchars as [Hd | [Hm | Hc]]; discriminate.
  - rewrite string_of_list_ascii_length, length_take.
    pose proof (time_text_length_ge8 (rtc_time hw n)). subst t. lia.
Qed.

Lemma placeholder_never_returns_witness :
  begin_ok hw_live = true /\
  exists l, children (lv (st (run hw_live g_blank 3))) !!
              clock_label (st (run hw_live g_blank 3)) = Some l /\
            label_text l <> placeholder /\
            (8 <= String.length (label_text l) <= 15)%nat.
Proof.
  split; [reflexivity |].
  exact (placeholder_never_returns hw_live g_blank 2 eq_refl).
Defined.

(** X10: a turn of [loop], taken from any state, changes no object on the
    screen other than the one [clock_label] points to, allocates nothing
    and leaves the active screen in place; it reads the clock exactly
    once. *)
Theorem loop_touches_only_its_label (hw : hardware) (m : machine) (q : N) :
  ctl m = InLoop ->
  q <> clock_label (st m) ->
  let m' := tick hw m in
  children (lv (st m')) !! q = children (lv (st m)) !! q /\
  act_scr (lv (st m')) = act_scr (lv (st m)) /\
  last_obj (lv (st m')) = last_obj (lv (st m)) /\
  rtc_reads (st m') = S (rtc_reads (st m)).
Proof.
  intros Hctl Hq m'. subst m'. unfold tick. rewrite Hctl, loop_returns.
  cbn [resume st lv children act_scr last_obj rtc_reads].
  split; [| repeat split].
  apply lookup_alter_ne. congruence.
Qed.

Lemma loop_touches_only_its_label_witness :
  (ctl (run hw_live g_blank 1) = InLoop /\
   5%N <> clock_label (st (run hw_live g_blank 1))) /\
  rtc_reads (st (tick hw_live (run hw_live g_blank 1))) =
    S (rtc_reads (st (run hw_live g_blank 1))).
Proof.
  split; [split; [reflexivity | vm_compute; discriminate] |].
  refine (proj2 (proj2 (proj2
    (loop_touches_only_its_label hw_live (run hw_live g_blank 1) 5 _ _))));
    [reflexivity | vm_compute; discriminate].
Defined.

End RunInvariants.

(** ** The turns of [loop] and the label they write *)

Section LoopTurns.

Lemma clock_string_length now :
  (8 <= length (take 15 (time_text now)) <= 15)%nat.
Proof. rewrite length_take. pose proof (time_text_length_ge8 now). lia. Qed.

Lemma clock_string_chars now :
  Forall (fun c => is_clock_char c = true) (take 15 (time_text now)).
Proof.
  apply Forall_take. unfold time_text.
  assert (Hf : forall v, Forall (fun c => is_clock_char c = true) (fmt_0d 2 v)).
  { intros v. eapply Forall_impl; [apply fmt_0d_clock_chars |].
    unfold is_clock_char. intros c [Hd | ->]; [rewrite Hd |]; reflexivity. }
  apply Forall_app; split; [apply Hf |].
  constructor; [reflexivity |].
  apply Forall_app; split; [apply Hf |].
  constructor; [reflexivity | apply Hf].
Qed.

(** No clock string is the placeholder: the placeholder starts with a
    letter. *)
Lemma clock_string_not_placeholder now :
  string_of_list_ascii (take 15 (time_text now)) <> placeholder.
Proof.
  intros Heq. apply (f_equal list_ascii_of_string) in Heq.
  rewrite list_ascii_of_string_of_list_ascii in Heq.
  pose proof (clock_string_chars now) as Hchars.
  rewrite Heq in Hchars. apply Forall_inv in Hchars. discriminate Hchars.
Qed.

(** C3, as stated, fails: the string a turn formats and shows is not of
    fixed width.  With a clock that returns 00:05:09 and then hour 100, the
    first turn shows 8 characters and the second shows the 9 characters
    "100:00:00". *)
Lemma loop_string_not_fixed_width :
  let hw := mkHardware true false false false
              (fun k => match k with O => mkDate 0 5 9 | _ => mkDate 100 0 0 end) in
  let s1 := st (run hw g_blank 1) in
  let s2 := st (run hw g_blank 2) in
  begin_ok hw = true /\
  cstring (buf s1) = "00:05:09"%string /\
  cstring (buf s2) = "100:00:00"%string /\
  List.filter (fun e => match e with LvLabelSetText _ _ => true | _ => false end)
    (drop (length (trace s1)) (trace s2)) = [LvLabelSetText 2 "100:00:00"] /\
  length (cstr (buf s1)) <> length (cstr (buf s2)) /\
  matches_dd_dd_dd (cstr (buf s2)) = false.
Proof. vm_compute. repeat split; discriminate. Qed.

(** C3, amended: once [setup] has returned, control is always about to call
    [loop], and each turn makes exactly five calls, in this order: the
    clock read, the [snprintf] of the three fields read, [lv_label_set_text]
    on the label with the string now in the buffer, [lv_timer_handler], and
    [delay(1000)]; the label then holds that string.  The string is the
    first 15 characters of the fields printed with a minimum width of two
    and joined by colons: it has 8 to 15 characters, reads back as the
    triple read whenever the complete text fits, and is the eight-character
    HH:MM:SS text whenever the three fields are in 0..99.  From any state
    whatever a turn of [loop] leads back to [loop]; the k-th turn reads the
    k-th clock value. *)
Theorem loop_iteration_calls (hw : hardware) (g0 : lvgl) (n : nat) :
  begin_ok hw = true ->
  let m := run hw g0 n in
  let m' := run hw g0 (S n) in
  let now := rtc_time hw n in
  let shown := cstr (buf (st m')) in
  ctl m = InLoop /\ ctl m' = InLoop /\
  rtc_reads (st m) = n /\
  buf (st m') = format_step (buf (st m)) now /\
  trace (st m') =
    trace (st m) ++
    [ RtcGetDateTime;
      Snprintf 16 (hour now) (minute now) (second now);
      LvLabelSetText (clock_label (st m)) (cstring (buf (st m')));
      LvTimerHandler;
      Delay 1000 ] /\
  trace (st m) =
    trace (st (boot hw g0)) ++ loops_calls hw (clock_label (st m)) n /\
  (forall m0, ctl m0 = InLoop ->
     ctl (tick hw m0) = InLoop /\
     trace (st (tick hw m0)) =
       trace (st m0) ++
       loop_calls (clock_label (st m0)) (rtc_time hw (rtc_reads (st m0)))) /\
  label_text <$> children (lv (st m')) !! clock_label (st m') =
    Some (cstring (buf (st m'))) /\
  shown = take 15 (time_text now) /\
  (8 <= length shown <= 15)%nat /\
  Forall (fun c => is_clock_char c = true) shown /\
  ((length (time_text now) <= 15)%nat -> parse_time shown = now) /\
  (0 <= hour now < 100 -> 0 <= minute now < 100 -> 0 <= second now < 100 ->
   shown =
     [digit_char (hour now / 10); digit_char (hour now mod 10); ":"%char;
      digit_char (minute now / 10); digit_char (minute now mod 10); ":"%char;
      digit_char (second now / 10); digit_char (second now mod 10)] /\
   matches_dd_dd_dd shown = true).
Proof.
  intros Hb m m' now shown. subst m m' now shown.
  pose proof (run_looping hw g0 0 Hb) as H0. cbn [run] in H0.
  rewrite !run_looping by exact Hb. rewrite H0.
  cbn [ctl st trace rtc_reads clock_label lv children buf buf_after].
  do 4 (split; [reflexivity |]).
  split; [| split; [| split]].
  - rewrite loops_calls_S, app_assoc. unfold loop_calls, cstring.
    rewrite cstr_format_step. reflexivity.
  - unfold loops_calls at 2. cbn [seq List.map concat].
    rewrite app_nil_r. reflexivity.
  - intros m0 Hm0. split.
    + rewrite tick_keeps_control. exact Hm0.
    + unfold tick. rewrite Hm0, loop_returns. reflexivity.
  - rewrite lookup_singleton_eq. unfold cstring. rewrite cstr_format_step.
    split; [reflexivity |].
    split; [reflexivity |].
    split; [apply clock_string_length |].
    split; [apply clock_string_chars |].
    split.
    + intros Hfit. rewrite take_ge by exact Hfit. apply parse_time_text.
    + intros Hh Hm Hs. rewrite time_text_in_range by assumption. cbn [take].
      split; [reflexivity | apply matches_two_digit_fields; assumption].
Qed.

Lemma loop_iteration_calls_witness :
  begin_ok hw_live = true /\
  ctl (run hw_live g_blank 2) = InLoop /\
  matches_dd_dd_dd (cstr (buf (st (run hw_live g_blank 3)))) = true.
Proof.
  split; [reflexivity |].
  pose proof (loop_iteration_calls hw_live g_blank 2 eq_refl) as H.
  cbv zeta in H.
  destruct H as (Hctl & _ & _ & _ & _ & _ & _ & _ & _ & _ & _ & _ & Hrange).
  split; [exact Hctl |].
  apply Hrange; simpl; lia.
Defined.

(** C10: [clock_label] is null at power-on and, when [watch.begin()]
    succeeds, is the label created in [setup] from then on.  That label is
    the only child of the screen at every step, with the font and the
    centring given in [setup]; its text is the placeholder until the first
    turn of [loop]; after each turn it is the buffer's string, the first 15
    characters of the clock text just read, which has 8 to 15 characters
    and is never the placeholder.  One [lv_label_create] and one
    [lv_obj_clean] are ever called, both in [setup], and no step taken from
    any state changes the pointer or the set of objects. *)
Theorem single_label_persists (hw : hardware) (g0 : lvgl) (n : nat) :
  begin_ok hw = true ->
  let p := N.succ (last_obj g0) in
  let s := st (run hw g0 n) in
  let s' := st (run hw g0 (S n)) in
  clock_label (power_on g0) = 0%N /\ p <> 0%N /\
  clock_label s = p /\
  children (lv s) =
    {[ p := mkLabel (text_after hw n) lv_font_montserrat_28 true ]} /\
  dom (children (lv s)) = {[ p ]} /\
  text_after hw 0 = placeholder /\
  text_after hw (S n) = cstring (buf s') /\
  count is_create (trace s) = 1%nat /\
  count is_clean (trace s) = 1%nat /\
  (forall m, clock_label (st (tick hw m)) = clock_label (st m) /\
             dom (children (lv (st (tick hw m)))) = dom (children (lv (st m)))) /\
  children (lv (st (boot hw g0))) !! p =
    Some (mkLabel placeholder lv_font_montserrat_28 true) /\
  children (lv s') !! p =
    Some (mkLabel (cstring (buf s')) lv_font_montserrat_28 true) /\
  cstr (buf s') = take 15 (time_text (rtc_time hw n)) /\
  cstring (buf s') <> placeholder /\
  (8 <= String.length (cstring (buf s')) <= 15)%nat.
Proof.
  intros Hb p s s'. subst p s s'.
  pose proof (run_looping hw g0 0 Hb) as H0. cbn [run] in H0.
  rewrite !run_looping by exact Hb. rewrite H0.
  cbn [st clock_label lv children trace buf buf_after text_after power_on].
  split; [reflexivity |].
  split; [apply N.neq_succ_0 |].
  split; [reflexivity |].
  split; [reflexivity |].
  split; [apply dom_singleton_L |].
  split; [reflexivity |].
  split; [unfold cstring; rewrite cstr_format_step; reflexivity |].
  split; [| split; [| split]].
  - rewrite count_app. unfold count at 2.
    rewrite filter_loops_calls_none by reflexivity.
    unfold setup_calls. destruct (psram_found hw), (motor_present hw); reflexivity.
  - rewrite count_app. unfold count at 2.
    rewrite filter_loops_calls_none by reflexivity.
    unfold setup_calls. destruct (psram_found hw), (motor_present hw); reflexivity.
  - intros m. unfold tick. destruct (ctl m).
    + exec_M. split; reflexivity.
    + rewrite loop_returns. cbn [resume st clock_label lv children].
      split; [reflexivity | apply dom_alter_L].
  - rewrite !lookup_singleton_eq. unfold cstring. rewrite cstr_format_step.
    split; [reflexivity |].
    split; [reflexivity |].
    split; [reflexivity |].
    split; [apply clock_string_not_placeholder |].
    rewrite string_of_list_ascii_length. apply clock_string_length.
Qed.

Lemma single_label_persists_witness :
  begin_ok hw_live = true /\
  clock_label (st (run hw_live g_blank 5)) = 2%N /\
  cstring (buf (st (run hw_live g_blank 6))) <> placeholder.
Proof.
  split; [reflexivity |].
  pose proof (single_label_persists hw_live g_blank 5 eq_refl) as H.
  cbv zeta in H.
  destruct H as (_ & _ & Hlabel & _ & _ & _ & _ & _ & _ & _ & _ & _ & _ & Hnew & _).
  split; [exact Hlabel | exact Hnew].
Defined.

End LoopTurns.
